(** * Cyber-Sentinel: the phishing URL analyser of [SingleFileApp.tsx]

    A shallow embedding of the one panel of the dashboard that carries
    logic: [analyzeUrlForPhishing], the [handleAnalysis] callback of the
    [App] component with its four [useState] cells, and the part of the
    render function that derives the pill, the threat level and the icon
    colour of each indicator.

    Strings are [string] (bytes, read as UTF-8).  JavaScript values that can
    come out of [JSON.parse] are the inductive [value].  The asynchronous
    code is a program over the effects it performs (state setters, the
    console, the remote call), run against an environment that decides how
    the remote promise settles. *)

From Stdlib Require Import String Ascii List Bool Arith Lia.
From ExtLib Require Import Structures.Monad.
Import ListNotations.
Import MonadNotation.
Local Open Scope string_scope.
Local Open Scope monad_scope.
Set Warnings "-register-all".

(** ** Text helpers *)

(** The double quote character, and [dq], which turns every apostrophe of
    a literal into a double quote, so that JSON texts stay readable. *)
Definition dquote : ascii := ascii_of_nat 34.

Fixpoint dq (s : string) : string :=
  match s with
  | EmptyString => EmptyString
  | String c r => String (if Ascii.eqb c "'"%char then dquote else c) (dq r)
  end.

Definition chars (s : string) : list ascii := list_ascii_of_string s.
Definition text_of (l : list ascii) : string := string_of_list_ascii l.

Fixpoint starts_with (p s : list ascii) : bool :=
  match p, s with
  | [], _ => true
  | _ :: _, [] => false
  | a :: p', b :: s' => Ascii.eqb a b && starts_with p' s'
  end.

(** ** JavaScript values reachable from [JSON.parse] *)

(** A number is kept as its literal: its numeric value is an IEEE double
    that no part of this program inspects. *)
Inductive value : Type :=
| JNull
| JBool (b : bool)
| JNum (literal : string)
| JStr (s : string)
| JArr (items : list value)
| JObj (members : list (string * value)).

(** Own-property lookup on a parsed object; [None] is [undefined]. *)
Fixpoint assoc (k : string) (ms : list (string * value)) : option value :=
  match ms with
  | [] => None
  | (k', v) :: r => if String.eqb k k' then Some v else assoc k r
  end.

(** Property definition as [JSON.parse] does it: a repeated key keeps its
    first position and takes the last value. *)
Fixpoint define (k : string) (v : value) (ms : list (string * value))
  : list (string * value) :=
  match ms with
  | [] => [(k, v)]
  | (k', v') :: r =>
      if String.eqb k k' then (k', v) :: r else (k', v') :: define k v r
  end.

(** ** The built-ins the source calls

    [String.prototype.trim] and [JSON.parse] belong to the language, not to
    the repository: the development is stated over any implementation of
    them, and [ecma] below is an executable one. *)
Class Builtins : Type := {
  trim : string -> string;
  (** [None] is a thrown [SyntaxError]. *)
  JSON_parse : string -> option value
}.

Module Ecma.

(** White space and line terminators removed by [trim], in UTF-8:
    TAB, LF, VT, FF, CR, SP, U+00A0, U+1680, U+2000..U+200A, U+2028, U+2029,
    U+202F, U+205F, U+3000, U+FEFF. *)
Definition bytes (l : list nat) : list ascii := map ascii_of_nat l.

Definition white_space : list (list ascii) :=
  map bytes
    ([[9]; [10]; [11]; [12]; [13]; [32]; [194; 160]; [225; 154; 128]]
     ++ map (fun b => [226; 128; b]) (seq 128 11)
     ++ [[226; 128; 168]; [226; 128; 169]; [226; 128; 175];
         [226; 129; 159]; [227; 128; 128]; [239; 187; 191]])%list.

(** Length of the white-space code point [s] starts with, if any. *)
Definition leading (pats : list (list ascii)) (s : list ascii) : option nat :=
  option_map (@length ascii) (find (fun p => starts_with p s) pats).

Fixpoint strip (fuel : nat) (pats : list (list ascii)) (s : list ascii)
  : list ascii :=
  match fuel with
  | 0 => s
  | S n =>
      match leading pats s with
      | Some k => strip n pats (skipn k s)
      | None => s
      end
  end.

Definition trim_chars (s : list ascii) : list ascii :=
  let s1 := strip (length s) white_space s in
  rev (strip (length s1) (map (@rev ascii) white_space) (rev s1)).

Definition trim (s : string) : string := text_of (trim_chars (chars s)).

(** *** A reader for the JSON grammar (ECMA-404) *)

Definition is_char c (d : string) : bool :=
  match d with
  | String d0 EmptyString => Ascii.eqb c d0
  | _ => false
  end.

Definition code (c : ascii) : nat := nat_of_ascii c.

Definition is_json_ws (c : ascii) : bool :=
  let n := code c in
  Nat.eqb n 32 || Nat.eqb n 9 || Nat.eqb n 10 || Nat.eqb n 13.

Fixpoint skip_ws (s : list ascii) : list ascii :=
  match s with
  | c :: r => if is_json_ws c then skip_ws r else s
  | [] => []
  end.

Definition is_digit (c : ascii) : bool :=
  Nat.leb 48 (code c) && Nat.leb (code c) 57.

Fixpoint digits (s : list ascii) : list ascii * list ascii :=
  match s with
  | c :: r =>
      if is_digit c then let '(d, r') := digits r in (c :: d, r') else ([], s)
  | [] => ([], [])
  end.

(** number = [-] int [frac] [exp] *)
Definition lex_int (s : list ascii) : option (list ascii * list ascii) :=
  match s with
  | c :: r =>
      if is_char c "0" then Some ([c], r)
      else if is_digit c then let '(d, r') := digits r in Some (c :: d, r')
      else None
  | [] => None
  end.

Definition lex_frac (s : list ascii) : option (list ascii * list ascii) :=
  match s with
  | c :: r =>
      if is_char c "." then
        match digits r with
        | ([], _) => None
        | (d, r') => Some (c :: d, r')
        end
      else Some ([], s)
  | [] => Some ([], [])
  end.

Definition lex_exp (s : list ascii) : option (list ascii * list ascii) :=
  match s with
  | c :: r =>
      if is_char c "e" || is_char c "E" then
        let '(sign, r1) :=
          match r with
          | g :: r0 => if is_char g "+" || is_char g "-" then ([g], r0) else ([], r)
          | [] => ([], r)
          end in
        match digits r1 with
        | ([], _) => None
        | (d, r') => Some ((c :: sign ++ d)%list, r')
        end
      else Some ([], s)
  | [] => Some ([], [])
  end.

Definition lex_number (s : list ascii) : option (list ascii * list ascii) :=
  let '(sign, s0) :=
    match s with
    | c :: r => if is_char c "-" then ([c], r) else ([], s)
    | [] => ([], s)
    end in
  match lex_int s0 with
  | None => None
  | Some (i, s1) =>
      match lex_frac s1 with
      | None => None
      | Some (f, s2) =>
          match lex_exp s2 with
          | None => None
          | Some (e, s3) => Some ((sign ++ i ++ f ++ e)%list, s3)
          end
      end
  end.

(** Hexadecimal digit of a [\uXXXX] escape. *)
Definition hex (c : ascii) : option nat :=
  let n := code c in
  if Nat.leb 48 n && Nat.leb n 57 then Some (n - 48)
  else if Nat.leb 65 n && Nat.leb n 70 then Some (n - 55)
  else if Nat.leb 97 n && Nat.leb n 102 then Some (n - 87)
  else None.

Definition hex4 (a b c d : ascii) : option nat :=
  match hex a, hex b, hex c, hex d with
  | Some x, Some y, Some z, Some w => Some (((x * 16 + y) * 16 + z) * 16 + w)
  | _, _, _, _ => None
  end.

(** UTF-8 of the code unit of a [\uXXXX] escape; a surrogate is written
    like any other three-byte code unit. *)
Definition utf8 (u : nat) : list ascii :=
  if Nat.ltb u 128 then bytes [u]
  else if Nat.ltb u 2048 then bytes [192 + u / 64; 128 + u mod 64]
  else bytes [224 + u / 4096; 128 + (u / 64) mod 64; 128 + u mod 64].

Definition simple_escape (e : ascii) : option ascii :=
  if is_char e "\" || is_char e "/" then Some e
  else if Ascii.eqb e dquote then Some e
  else if is_char e "b" then Some (ascii_of_nat 8)
  else if is_char e "f" then Some (ascii_of_nat 12)
  else if is_char e "n" then Some (ascii_of_nat 10)
  else if is_char e "r" then Some (ascii_of_nat 13)
  else if is_char e "t" then Some (ascii_of_nat 9)
  else None.

(** The characters of a string after its opening quote; [acc] is reversed. *)
Fixpoint lex_string (s acc : list ascii) : option (string * list ascii) :=
  match s with
  | [] => None
  | c :: r =>
      if Ascii.eqb c dquote then Some (text_of (rev acc), r)
      else if is_char c "\" then
        match r with
        | [] => None
        | e :: r1 =>
            if is_char e "u" then
              match r1 with
              | h1 :: h2 :: h3 :: h4 :: r2 =>
                  match hex4 h1 h2 h3 h4 with
                  | Some u => lex_string r2 (rev (utf8 u) ++ acc)%list
                  | None => None
                  end
              | _ => None
              end
            else
              match simple_escape e with
              | Some x => lex_string r1 (x :: acc)
              | None => None
              end
        end
      else if Nat.ltb (code c) 32 then None
      else lex_string r (c :: acc)
  end.

Definition keyword (k : string) (v : value) (s : list ascii)
  : option (value * list ascii) :=
  if starts_with (chars k) s then Some (v, skipn (String.length k) s) else None.

Fixpoint parse_value (fuel : nat) (s : list ascii) {struct fuel}
  : option (value * list ascii) :=
  match fuel with
  | 0 => None
  | S n =>
      match skip_ws s with
      | [] => None
      | c :: r =>
          if is_char c "n" then keyword "null" JNull (c :: r)
          else if is_char c "t" then keyword "true" (JBool true) (c :: r)
          else if is_char c "f" then keyword "false" (JBool false) (c :: r)
          else if Ascii.eqb c dquote then
            match lex_string r [] with
            | Some (x, r') => Some (JStr x, r')
            | None => None
            end
          else if is_char c "[" then
            match skip_ws r with
            | d :: r' =>
                if is_char d "]" then Some (JArr [], r') else parse_elements n r []
            | [] => None
            end
          else if is_char c "{" then
            match skip_ws r with
            | d :: r' =>
                if is_char d "}" then Some (JObj [], r') else parse_members n r []
            | [] => None
            end
          else
            match lex_number (c :: r) with
            | Some (lit, r') => Some (JNum (text_of lit), r')
            | None => None
            end
      end
  end

with parse_elements (fuel : nat) (s : list ascii) (acc : list value)
  {struct fuel} : option (value * list ascii) :=
  match fuel with
  | 0 => None
  | S n =>
      match parse_value n s with
      | None => None
      | Some (v, r) =>
          match skip_ws r with
          | d :: r' =>
              if is_char d "," then parse_elements n r' (v :: acc)
              else if is_char d "]" then Some (JArr (rev (v :: acc)), r')
              else None
          | [] => None
          end
      end
  end

with parse_members (fuel : nat) (s : list ascii) (acc : list (string * value))
  {struct fuel} : option (value * list ascii) :=
  match fuel with
  | 0 => None
  | S n =>
      match skip_ws s with
      | q :: r =>
          if Ascii.eqb q dquote then
            match lex_string r [] with
            | None => None
            | Some (k, r1) =>
                match skip_ws r1 with
                | colon :: r2 =>
                    if is_char colon ":" then
                      match parse_value n r2 with
                      | None => None
                      | Some (v, r3) =>
                          match skip_ws r3 with
                          | d :: r4 =>
                              if is_char d "," then parse_members n r4 (define k v acc)
                              else if is_char d "}" then Some (JObj (define k v acc), r4)
                              else None
                          | [] => None
                          end
                      end
                    else None
                | [] => None
                end
            end
          else None
      | [] => None
      end
  end.

(** One value between optional white space, and nothing after it.  The
    fuel bounds the depth of the calls of the reader; it is taken well
    above the length of the text. *)
Definition JSON_parse (s : string) : option value :=
  match parse_value (2 * String.length s + 2) (chars s) with
  | Some (v, r) => match skip_ws r with [] => Some v | _ :: _ => None end
  | None => None
  end.

End Ecma.

#[export] Instance ecma : Builtins :=
  {| trim := Ecma.trim; JSON_parse := Ecma.JSON_parse |}.

(** ** The analysis result and its declared schema *)

Inductive Confidence : Type := High | Medium | Low | ConfidenceNone.

Definition Confidence_text (c : Confidence) : string :=
  match c with
  | High => "High"
  | Medium => "Medium"
  | Low => "Low"
  | ConfidenceNone => "None"
  end.

Definition Confidence_of_text (s : string) : option Confidence :=
  if String.eqb s "High" then Some High
  else if String.eqb s "Medium" then Some Medium
  else if String.eqb s "Low" then Some Low
  else if String.eqb s "None" then Some ConfidenceNone
  else None.

Record PhishingAnalysisResult : Type := {
  isPhishing : bool;
  confidence : Confidence;
  explanation : string;
  indicators : list string
}.

(** The part of the response-schema language that the source uses. *)
Inductive Schema : Type :=
| BOOLEAN (description : option string)
| STRING (enum : option (list string)) (description : option string)
| ARRAY (items : Schema) (description : option string)
| OBJECT (properties : list (string * Schema)) (required : list string).

Definition phishingAnalysisSchema : Schema :=
  OBJECT
    [ ("isPhishing",
       BOOLEAN (Some "Is the URL a phishing attempt? True or false."));
      ("confidence",
       STRING (Some ["High"; "Medium"; "Low"; "None"])
         (Some "The confidence level of the phishing assessment."));
      ("explanation",
       STRING None
         (Some "A concise, one-paragraph explanation of why the URL is or is not considered a threat."));
      ("indicators",
       ARRAY (STRING None None)
         (Some "A list of specific red flags or positive signs found (e.g., 'Suspicious subdomain', 'Uses HTTPS', 'Known legitimate domain').")) ]
    ["isPhishing"; "confidence"; "explanation"; "indicators"].

Definition has_key (ms : list (string * value)) (k : string) : bool :=
  match assoc k ms with Some _ => true | None => false end.

(** A value matches a schema: the type agrees, a string is one of the
    enumerated ones when there are any, every item of an array matches the
    item schema, every required key is present and every declared property
    that is present matches its schema. *)
Fixpoint conforms (sch : Schema) (v : value) {struct sch} : bool :=
  match sch, v with
  | BOOLEAN _, JBool _ => true
  | STRING en _, JStr s =>
      match en with
      | None => true
      | Some allowed => existsb (String.eqb s) allowed
      end
  | ARRAY it _, JArr l => forallb (conforms it) l
  | OBJECT props req, JObj ms =>
      forallb (has_key ms) req
      && (fix each (ps : list (string * Schema)) : bool :=
            match ps with
            | [] => true
            | (k, sc) :: r =>
                match assoc k ms with
                | Some x => conforms sc x
                | None => true
                end && each r
            end) props
  | _, _ => false
  end.

(** The values on which the unchecked annotation
    [const result: PhishingAnalysisResult = JSON.parse(jsonString)] is
    true. *)
Definition as_string (v : value) : option string :=
  match v with JStr s => Some s | _ => None end.

Fixpoint as_strings (l : list value) : option (list string) :=
  match l with
  | [] => Some []
  | v :: r =>
      match as_string v, as_strings r with
      | Some s, Some ss => Some (s :: ss)
      | _, _ => None
      end
  end.

Definition as_PhishingAnalysisResult (v : value) : option PhishingAnalysisResult :=
  match v with
  | JObj ms =>
      match assoc "isPhishing" ms, assoc "confidence" ms,
            assoc "explanation" ms, assoc "indicators" ms with
      | Some (JBool b), Some (JStr c), Some (JStr e), Some (JArr l) =>
          match Confidence_of_text c, as_strings l with
          | Some c', Some inds =>
              Some {| isPhishing := b; confidence := c';
                      explanation := e; indicators := inds |}
          | _, _ => None
          end
      | _, _, _, _ => None
      end
  | _ => None
  end.

(** ** The remote service *)

Record JsError : Type := { name : string; message : string }.

Record GenerateContentConfig : Type := {
  responseMimeType : string;
  responseSchema : Schema;
  temperature : value
}.

Record GenerateContentParameters : Type := {
  model : string;
  contents : string;
  config : GenerateContentConfig
}.

(** [text] is [undefined] when the response carries no text part. *)
Record GenerateContentResponse : Type := { text : option string }.

(** How the promise of [ai.models.generateContent] settles.  A timeout or
    a non-2xx status reaches the caller as a rejection; [Pending] is a
    promise that never settles. *)
Inductive Outcome : Type :=
| Pending
| Rejected (reason : JsError)
| Resolved (response : GenerateContentResponse).

Definition Service : Type := GenerateContentParameters -> Outcome.

(** ** Programs over the effects of the component *)

Inductive Effect : Type -> Type :=
| SetIsLoading (b : bool) : Effect unit
| SetResult (r : value) : Effect unit
| SetError (e : option string) : Effect unit
| ConsoleError (label : string) (err : JsError) : Effect unit
| GenerateContent (req : GenerateContentParameters)
  : Effect (JsError + GenerateContentResponse).

Inductive Prog (A : Type) : Type :=
| Ret (a : A)
| Vis {X : Type} (e : Effect X) (k : X -> Prog A).

Arguments Ret {A} a.
Arguments Vis {A X} e k.

Fixpoint Prog_bind {A B : Type} (p : Prog A) (f : A -> Prog B) : Prog B :=
  match p with
  | Ret a => f a
  | Vis e k => Vis e (fun x => Prog_bind (k x) f)
  end.

(** An asynchronous computation completes normally ([inr]) or abruptly
    with a thrown error ([inl]). *)
Definition Async (A : Type) : Type := Prog (JsError + A).

#[export] Instance Monad_Async : Monad Async := {
  ret := fun A (a : A) => Ret (inr a);
  bind := fun A B (c : Async A) (f : A -> Async B) =>
    Prog_bind c (fun r => match r with inl e => Ret (inl e) | inr a => f a end)
}.

Definition throw {A : Type} (e : JsError) : Async A := Ret (inl e).

Definition perform {X : Type} (e : Effect X) : Async X :=
  Vis e (fun x => Ret (inr x)).

(** [try { body } catch (err) { handler err }] *)
Definition try_catch {A : Type} (body : Async A) (handler : JsError -> Async A)
  : Async A :=
  Prog_bind body
    (fun r => match r with inl e => handler e | inr a => Ret (inr a) end).

(** [try { body } finally { final }]: the completion of [body] stands
    unless [final] completes abruptly. *)
Definition try_finally {A : Type} (body : Async A) (final : Async unit)
  : Async A :=
  Prog_bind body
    (fun r => Prog_bind final
       (fun f => match f with inl e => Ret (inl e) | inr _ => Ret r end)).

Definition setIsLoading (b : bool) : Async unit := perform (SetIsLoading b).
Definition setResult (r : value) : Async unit := perform (SetResult r).
Definition setError (e : option string) : Async unit := perform (SetError e).
Definition console_error (label : string) (err : JsError) : Async unit :=
  perform (ConsoleError label err).

(** [await ai.models.generateContent(req)]: a rejection is thrown at the
    [await]. *)
Definition generateContent (req : GenerateContentParameters)
  : Async GenerateContentResponse :=
  Vis (GenerateContent req) (fun x => Ret x).

Definition Error (msg : string) : JsError :=
  {| name := "Error"; message := msg |}.

(** Errors raised by the engine; the wording of their messages is the
    engine's own. *)
Definition TypeError_undefined : JsError :=
  {| name := "TypeError";
     message := "Cannot read properties of undefined (reading 'trim')" |}.

Definition SyntaxError_json : JsError :=
  {| name := "SyntaxError"; message := "Unexpected token in JSON" |}.

Definition nl : string := String (ascii_of_nat 10) "".
Definition quote : string := String dquote "".

Section Analyzer.
Context {B : Builtins}.

(** [response.text.trim()] *)
Definition text_trim (response : GenerateContentResponse) : Async string :=
  match text response with
  | Some t => ret (trim t)
  | None => throw TypeError_undefined
  end.

Definition parse (jsonString : string) : Async value :=
  match JSON_parse jsonString with
  | Some v => ret v
  | None => throw SyntaxError_json
  end.

Definition prompt_for (url : string) : string :=
  nl ++ "        Analyze the following URL for potential phishing threats. Evaluate its structure, domain, and any other suspicious characteristics. Provide a structured analysis based on the provided JSON schema. Do not just repeat the prompt, provide the analysis directly."
  ++ nl ++ nl ++ "        URL to analyze: " ++ quote ++ url ++ quote
  ++ nl ++ "      ".

Definition request_for (url : string) : GenerateContentParameters :=
  {| model := "gemini-2.5-flash";
     contents := prompt_for url;
     config := {| responseMimeType := "application/json";
                  responseSchema := phishingAnalysisSchema;
                  temperature := JNum "0.2" |} |}.

Definition failure_message : string :=
  "Failed to analyze the URL. The AI service may be unavailable or the URL may be invalid.".

Definition analyzeUrlForPhishing (url : string) : Async value :=
  try_catch
    (response <- generateContent (request_for url) ;;
     jsonString <- text_trim response ;;
     result <- parse jsonString ;;
     ret result)
    (fun error =>
       console_error "Error analyzing URL with Gemini:" error ;;
       throw (Error failure_message)).

(** [a || b] on strings: the empty string is falsy. *)
Definition or_else (a b : string) : string :=
  if String.eqb a "" then b else a.

Definition validation_message : string := "Please enter a URL to analyze.".

Definition handleAnalysis (url : string) : Async unit :=
  if String.eqb url "" then
    setError (Some validation_message) ;;
    ret tt
  else
    setIsLoading true ;;
    setError None ;;
    setResult JNull ;;
    try_finally
      (try_catch
         (analysis <- analyzeUrlForPhishing url ;;
          setResult analysis)
         (fun err =>
            setError (Some (or_else (message err) "An unknown error occurred."))))
      (setIsLoading false).

End Analyzer.

(** ** The state of the component and the run of a program *)

(** The four [useState] cells of [App]; [JNull] in [result] is [null].

    A setter is taken as an immediate write of its cell.  The handler never
    reads a cell after writing it (it reads [url] from its closure and
    passes plain values, not updater functions), so at every point where it
    yields, at its [await] and at its end, the cells hold what React
    renders next. *)
Record State : Type := {
  url : string;
  isLoading : bool;
  result : value;
  error : option string
}.

Definition initial : State :=
  {| url := ""; isLoading := false; result := JNull; error := None |}.

Definition with_isLoading (b : bool) (s : State) : State :=
  {| url := url s; isLoading := b; result := result s; error := error s |}.
Definition with_result (r : value) (s : State) : State :=
  {| url := url s; isLoading := isLoading s; result := r; error := error s |}.
Definition with_error (e : option string) (s : State) : State :=
  {| url := url s; isLoading := isLoading s; result := result s; error := e |}.

(** What happened, in order; every event comes with the state of the cells
    right after it.  [Requested] is the moment the call has been issued and
    the caller waits at its [await]; [Settled] the moment it resumes. *)
Inductive Event : Type :=
| SetIsLoadingTo (b : bool)
| SetResultTo (r : value)
| SetErrorTo (e : option string)
| Logged (label : string) (err : JsError)
| Requested (req : GenerateContentParameters)
| Settled (r : JsError + GenerateContentResponse).

Definition Trace : Type := list (Event * State).

Record Run (A : Type) : Type := {
  trace : Trace;
  final : State;
  (** [None]: the program is still waiting for a promise. *)
  completion : option A
}.

Arguments trace {A} r.
Arguments final {A} r.
Arguments completion {A} r.

Definition handle (srv : Service) {X : Type} (e : Effect X) (s : State)
  : Run X :=
  match e in Effect T return Run T with
  | SetIsLoading b =>
      let s' := with_isLoading b s in
      {| trace := [(SetIsLoadingTo b, s')]; final := s'; completion := Some tt |}
  | SetResult r =>
      let s' := with_result r s in
      {| trace := [(SetResultTo r, s')]; final := s'; completion := Some tt |}
  | SetError m =>
      let s' := with_error m s in
      {| trace := [(SetErrorTo m, s')]; final := s'; completion := Some tt |}
  | ConsoleError label err =>
      {| trace := [(Logged label err, s)]; final := s; completion := Some tt |}
  | GenerateContent req =>
      match srv req with
      | Pending =>
          {| trace := [(Requested req, s)]; final := s; completion := None |}
      | Rejected reason =>
          {| trace := [(Requested req, s); (Settled (inl reason), s)];
             final := s; completion := Some (inl reason) |}
      | Resolved response =>
          {| trace := [(Requested req, s); (Settled (inr response), s)];
             final := s; completion := Some (inr response) |}
      end
  end.

Fixpoint exec (srv : Service) {A : Type} (p : Prog A) (s : State) : Run A :=
  match p with
  | Ret a => {| trace := []; final := s; completion := Some a |}
  | Vis e k =>
      let h := handle srv e s in
      match completion h with
      | None => {| trace := trace h; final := final h; completion := None |}
      | Some x =>
          let r := exec srv (k x) (final h) in
          {| trace := (trace h ++ trace r)%list; final := final r;
             completion := completion r |}
      end
  end.

(** The requests issued in a trace, and the states during which a request
    is outstanding. *)
Fixpoint requests (tr : Trace) : list GenerateContentParameters :=
  match tr with
  | [] => []
  | (Requested req, _) :: r => req :: requests r
  | _ :: r => requests r
  end.

Fixpoint in_flight (outstanding : bool) (tr : Trace) : list State :=
  match tr with
  | [] => []
  | (Requested _, s) :: r => s :: in_flight true r
  | (Settled _, _) :: r => in_flight false r
  | (_, s) :: r =>
      if outstanding then s :: in_flight outstanding r
      else in_flight outstanding r
  end.

Definition error_writes (tr : Trace) : list (option string) :=
  flat_map (fun m => match fst m with SetErrorTo e => [e] | _ => [] end) tr.

Definition isLoading_writes (tr : Trace) : list bool :=
  flat_map (fun m => match fst m with SetIsLoadingTo b => [b] | _ => [] end) tr.

(** ** Rendering *)

(** A regular expression of the shape the source uses: characters,
    alternatives and a group, with the [i] flag. *)
Inductive RegExp : Type :=
| Chars (s : string)
| Alt (r1 r2 : RegExp)
| Group (r : RegExp).

(** Canonicalize of a pattern without the [u] flag: the upper-case form of
    the character; only ASCII letters can meet ASCII letters. *)
Definition canonicalize (ignoreCase : bool) (c : ascii) : ascii :=
  if ignoreCase then
    let n := nat_of_ascii c in
    if Nat.leb 97 n && Nat.leb n 122 then ascii_of_nat (n - 32) else c
  else c.

Fixpoint match_chars (i : bool) (p s : list ascii) : option (list ascii) :=
  match p, s with
  | [], _ => Some s
  | _ :: _, [] => None
  | a :: p', b :: s' =>
      if Ascii.eqb (canonicalize i a) (canonicalize i b)
      then match_chars i p' s' else None
  end.

(** Backtracking matcher: [r] matches at the start of [s] and the
    continuation accepts what is left. *)
Fixpoint matcher (i : bool) (r : RegExp) (s : list ascii)
  (k : list ascii -> bool) : bool :=
  match r with
  | Chars p =>
      match match_chars i (chars p) s with
      | Some rest => k rest
      | None => false
      end
  | Alt r1 r2 => matcher i r1 s k || matcher i r2 s k
  | Group r' => matcher i r' s k
  end.

(** [RegExp.prototype.test] of a pattern without [g] or [y]: a match at
    some start index. *)
Fixpoint search (i : bool) (r : RegExp) (s : list ascii) : bool :=
  matcher i r s (fun _ => true)
  || match s with
     | [] => false
     | _ :: s' => search i r s'
     end.

Definition test (ignoreCase : bool) (r : RegExp) (s : string) : bool :=
  search ignoreCase r (chars s).

(** [/(HTTPS|legitimate|secure|trusted|valid)/i] *)
Definition safe_pattern : RegExp :=
  Group (Alt (Chars "HTTPS")
        (Alt (Chars "legitimate")
        (Alt (Chars "secure")
        (Alt (Chars "trusted") (Chars "valid"))))).

Definition isSafe (indicator : string) : bool := test true safe_pattern indicator.

Record Pill : Type := { bgColor : string; textColor : string; pill_text : string }.

Definition StatusPill (result : option PhishingAnalysisResult) : option Pill :=
  match result with
  | None => None
  | Some result =>
      let isPhishing := isPhishing result in
      Some {| bgColor := if isPhishing then "bg-red-500/20" else "bg-green-500/20";
              textColor := if isPhishing then "text-sentinel-red" else "text-sentinel-green";
              pill_text := if isPhishing then "Phishing Detected" else "URL Appears Safe" |}
  end.

Inductive Glyph : Type := CheckMark | Cross.

Record Icon : Type := { color : string; glyph : Glyph }.

Definition IndicatorIcon (isPositive : bool) : Icon :=
  {| color := if isPositive then "text-sentinel-green" else "text-sentinel-red";
     glyph := if isPositive then CheckMark else Cross |}.

Record ResultPanel : Type := {
  status : option Pill;
  threat_color : string;
  threat_level : string;
  confidence_shown : string;
  url_analyzed : string;
  explanation_shown : string;
  rows : list (Icon * string)
}.

Definition result_panel (url : string) (result : PhishingAnalysisResult)
  : ResultPanel :=
  {| status := StatusPill (Some result);
     threat_color := if isPhishing result then "text-sentinel-red" else "text-sentinel-green";
     threat_level := if isPhishing result then "Dangerous" else "Safe";
     confidence_shown := Confidence_text (confidence result);
     url_analyzed := url;
     explanation_shown := explanation result;
     rows := map (fun indicator =>
                    let isSafe := isSafe indicator in
                    (IndicatorIcon isSafe, indicator))
                 (indicators result) |}.

(** [result && (...)]: nothing for [null], the panel for a value of the
    declared type; what React makes of any other value is outside this
    model. *)
Inductive Panel : Type :=
| Hidden
| Shown (p : ResultPanel)
| Untyped (v : value).

Record View : Type := {
  input_value : string;
  input_disabled : bool;
  button_disabled : bool;
  button_label : string;
  error_box : option string;
  panel : Panel
}.

Definition App (s : State) : View :=
  {| input_value := url s;
     input_disabled := isLoading s;
     button_disabled := isLoading s;
     button_label := if isLoading s then "Analyzing..." else "Scan URL";
     error_box := match error s with
                  | Some e => if String.eqb e "" then None else Some e
                  | None => None
                  end;
     panel := match result s with
              | JNull => Hidden
              | v => match as_PhishingAnalysisResult v with
                     | Some r => Shown (result_panel (url s) r)
                     | None => Untyped v
                     end
              end |}.

(** The callback of the render of [s]: [useCallback] closes over the
    [url] of that render. *)
Definition invoke {B : Builtins} (srv : Service) (s : State) : Run (JsError + unit) :=
  exec srv (handleAnalysis (url s)) s.

(** ** Vocabulary for the runs of the handler *)

(** The cells after the three setters that precede the call. *)
Definition started (s : State) : State :=
  with_result JNull (with_error None (with_isLoading true s)).

Definition prologue (s : State) : Trace :=
  [ (SetIsLoadingTo true, with_isLoading true s);
    (SetErrorTo None, with_error None (with_isLoading true s));
    (SetResultTo JNull, started s) ].

Definition epilogue (w : Event) (upd : State -> State) (s : State) : Trace :=
  [ (w, upd s); (SetIsLoadingTo false, with_isLoading false (upd s)) ].

Definition log_label : string := "Error analyzing URL with Gemini:".

Definition failed_run (req : GenerateContentParameters) (s : State)
  (settled : JsError + GenerateContentResponse) (err : JsError)
  : Run (JsError + value) :=
  {| trace := [(Requested req, s); (Settled settled, s); (Logged log_label err, s)];
     final := s;
     completion := Some (inl (Error failure_message)) |}.

Definition result_writes (tr : Trace) : list value :=
  flat_map (fun m => match fst m with SetResultTo r => [r] | _ => [] end) tr.

Section Failure.
Context {B : Builtins}.

(** The ways in which the remote call fails to deliver an analysis. *)
Inductive Fails : Outcome -> Prop :=
| fails_rejected (reason : JsError) : Fails (Rejected reason)
| fails_no_text : Fails (Resolved {| text := None |})
| fails_malformed (t : string) :
    JSON_parse (trim t) = None -> Fails (Resolved {| text := Some t |}).

End Failure.

(** A URL made of white space only: not empty, and nothing is left of it
    after [trim]. *)
Definition whitespace_only (u : string) : bool :=
  negb (String.eqb u "") && String.eqb (Ecma.trim u) "".

(** ** The classifier as the specification words it

    An indicator is positive when it contains one of five keywords, letter
    case aside.  These definitions follow the specification; [isSafe]
    above follows the source. *)
Definition lower (c : ascii) : ascii :=
  let n := nat_of_ascii c in
  if Nat.leb 65 n && Nat.leb n 90 then ascii_of_nat (n + 32) else c.

Definition same_ignoring_case (a b : string) : Prop :=
  map lower (chars a) = map lower (chars b).

Definition contains_ignoring_case (kw s : string) : Prop :=
  exists pre mid post : string,
    s = pre ++ mid ++ post /\ same_ignoring_case mid kw.

Definition positive_keywords : list string :=
  ["HTTPS"; "legitimate"; "secure"; "trusted"; "valid"].

Definition mentions_positive_keyword (s : string) : Prop :=
  exists kw : string,
    In kw positive_keywords /\ contains_ignoring_case kw s.

Definition all_ascii : list ascii := map ascii_of_nat (seq 0 256).

Definition folds_agree (c d : ascii) : bool :=
  Bool.eqb (Ascii.eqb (canonicalize true c) (canonicalize true d))
           (Ascii.eqb (lower c) (lower d)).

(** ** Concrete inputs *)

(** [onChange]: [setUrl(e.target.value)]. *)
Definition onChange (v : string) (s : State) : State :=
  {| url := v; isLoading := isLoading s; result := result s; error := error s |}.

Definition answering (t : string) : Service :=
  fun _ => Resolved {| text := Some t |}.

Definition unreachable : Service :=
  fun _ => Rejected {| name := "TypeError"; message := "Failed to fetch" |}.

Definition silent : Service := fun _ => Pending.

(** The example of the specification. *)
Definition example_url : string := "http://paypa1-secure-login.com".

Definition example_result (e : string) : PhishingAnalysisResult :=
  {| isPhishing := true;
     confidence := High;
     explanation := e;
     indicators := ["Suspicious subdomain"; "Uses HTTP not HTTPS"] |}.

Definition example_body : string :=
  dq " {'isPhishing': true, 'confidence': 'High', 'explanation': '...', 'indicators': ['Suspicious subdomain', 'Uses HTTP not HTTPS']} ".

Definition example_value : value :=
  JObj [ ("isPhishing", JBool true);
         ("confidence", JStr "High");
         ("explanation", JStr "...");
         ("indicators", JArr [JStr "Suspicious subdomain"; JStr "Uses HTTP not HTTPS"]) ].

(** States of the component used as concrete inputs: the example URL
    typed into a fresh component; the same after a successful analysis;
    that state with the input cleared again; the typed state with a stale
    result and message in its cells; a single space typed. *)
Definition example_typed : State := onChange example_url initial.

Definition example_analyzed : State :=
  final (invoke (answering example_body) example_typed).

Definition example_cleared : State := onChange "" example_analyzed.

Definition example_stale : State :=
  with_error (Some validation_message)
    (with_result (JStr "stale") example_typed).

Definition space_typed : State := onChange " " initial.

Definition red_pill : Pill :=
  {| bgColor := "bg-red-500/20"; textColor := "text-sentinel-red";
     pill_text := "Phishing Detected" |}.

(** What the specification expects the panel of its example to show. *)
Definition example_as_specified (p : ResultPanel) : Prop :=
  status p = Some red_pill
  /\ threat_level p = "Dangerous"
  /\ confidence_shown p = "High"
  /\ map fst (rows p) = [IndicatorIcon false; IndicatorIcon false].

(** ** Further vocabulary *)

(** What a trace wrote to the console. *)
Definition logged (tr : Trace) : list (string * JsError) :=
  flat_map (fun m => match fst m with
                     | Logged label err => [(label, err)]
                     | _ => []
                     end) tr.

Definition fallback_message : string := "An unknown error occurred.".

Definition rejecting (reason : JsError) : Service := fun _ => Rejected reason.

Definition fetch_failed : JsError :=
  {| name := "TypeError"; message := "Failed to fetch" |}.

(** ** Where the view is the render of the source

    [App] is the render of the source at the states whose result cell is
    [null] or holds a value of the declared type.  At any other state the
    render of the source may throw (at [result.indicators.map] when there
    is no array of indicators) or show a panel for a value outside the
    declared type: there the [View] of [App], its form fields included,
    says nothing about the source. *)
Definition render_modelled (s : State) : bool :=
  match panel (App s) with
  | Untyped _ => false
  | Hidden | Shown _ => true
  end.

(** ** Characters of a string

    A byte [10xxxxxx] continues a UTF-8 sequence; every other byte starts
    a character.  A string has at most as many characters as UTF-16 code
    units. *)
Definition is_continuation (c : ascii) : bool :=
  let n := nat_of_ascii c in
  Nat.leb 128 n && Nat.ltb n 192.

Definition starts_character (c : ascii) : bool := negb (is_continuation c).

Definition count_characters (l : list ascii) : nat :=
  List.length (filter starts_character l).

Definition code_points (s : string) : nat := count_characters (chars s).

Definition lower_keeps_kind (c d : ascii) : bool :=
  implb (Ascii.eqb (lower c) (lower d))
        (Bool.eqb (starts_character c) (starts_character d)).

(** * Properties *)

Arguments request_for : simpl never.

Section Semantics.
Context {B : Builtins}.
Variable srv : Service.

(** Running a sequence is running its parts in order, unless the first
    part is left waiting. *)
Lemma exec_bind {A C : Type} (p : Prog A) (f : A -> Prog C) (s : State) :
  exec srv (Prog_bind p f) s =
  let r := exec srv p s in
  match completion r with
  | None => {| trace := trace r; final := final r; completion := None |}
  | Some a =>
      let r' := exec srv (f a) (final r) in
      {| trace := (trace r ++ trace r')%list; final := final r';
         completion := completion r' |}
  end.
Proof.
  revert s. induction p as [a | X e k IH]; intro s; cbn.
  - destruct (exec srv (f a) s); reflexivity.
  - destruct (completion (handle srv e s)) as [x|]; [|reflexivity].
    rewrite IH. cbn.
    destruct (completion (exec srv (k x) (final (handle srv e s)))); cbn.
    + rewrite app_assoc. reflexivity.
    + reflexivity.
Qed.

Lemma exec_analyzeUrlForPhishing (u : string) (s : State) :
  exec srv (analyzeUrlForPhishing u) s =
  let req := request_for u in
  match srv req with
  | Pending => {| trace := [(Requested req, s)]; final := s; completion := None |}
  | Rejected reason => failed_run req s (inl reason) reason
  | Resolved response =>
      match text response with
      | None => failed_run req s (inr response) TypeError_undefined
      | Some t =>
          match JSON_parse (trim t) with
          | None => failed_run req s (inr response) SyntaxError_json
          | Some v =>
              {| trace := [(Requested req, s); (Settled (inr response), s)];
                 final := s; completion := Some (inr v) |}
          end
      end
  end.
Proof.
  unfold analyzeUrlForPhishing. cbn.
  destruct (srv (request_for u)) as [|reason|response]; cbn; try reflexivity.
  unfold text_trim. destruct (text response) as [t|]; cbn; try reflexivity.
  unfold parse. destruct (JSON_parse (trim t)) as [v|]; cbn; reflexivity.
Qed.

Lemma exec_handleAnalysis_empty (s : State) :
  exec srv (handleAnalysis "") s =
  {| trace := [(SetErrorTo (Some validation_message),
                with_error (Some validation_message) s)];
     final := with_error (Some validation_message) s;
     completion := Some (inr tt) |}.
Proof. reflexivity. Qed.

Lemma exec_handleAnalysis (u : string) (s : State) :
  u <> "" ->
  exec srv (handleAnalysis u) s =
  let a := exec srv (analyzeUrlForPhishing u) (started s) in
  match completion a with
  | None =>
      {| trace := (prologue s ++ trace a)%list; final := final a;
         completion := None |}
  | Some (inr analysis) =>
      {| trace := (prologue s ++ trace a
                   ++ epilogue (SetResultTo analysis) (with_result analysis)
                        (final a))%list;
         final := with_isLoading false (with_result analysis (final a));
         completion := Some (inr tt) |}
  | Some (inl err) =>
      let m := Some (or_else (message err) "An unknown error occurred.") in
      {| trace := (prologue s ++ trace a
                   ++ epilogue (SetErrorTo m) (with_error m) (final a))%list;
         final := with_isLoading false (with_error m (final a));
         completion := Some (inr tt) |}
  end.
Proof.
  intros Hu. unfold handleAnalysis. destruct u as [|c u']; [congruence|].
  cbn [String.eqb]. set (u := String c u').
  cbn -[analyzeUrlForPhishing].
  unfold try_finally, try_catch. rewrite !exec_bind.
  fold (started s). cbn -[analyzeUrlForPhishing].
  generalize (exec srv (analyzeUrlForPhishing u) (started s)).
  intros [tr fin [[err|v]|]]; cbn;
    rewrite ?app_nil_r, <- ?app_assoc; reflexivity.
Qed.

End Semantics.

(** Unfolds a run of the handler on a non-empty URL down to its events. *)
Ltac run_handler Hu :=
  unfold invoke;
  rewrite (exec_handleAnalysis _ _ _ Hu), exec_analyzeUrlForPhishing; cbn zeta.

Section Handler.
Context {B : Builtins}.
Variable srv : Service.

(** C1: in every state whose URL cell is the empty string, the handler
    issues no remote call, returns, and leaves the message
    'Please enter a URL to analyze.' in the error cell, where the view
    shows it. *)
Theorem empty_url_no_call_validation_message (s : State) :
  url s = "" ->
  requests (trace (invoke srv s)) = []
  /\ completion (invoke srv s) = Some (inr tt)
  /\ error (final (invoke srv s)) = Some "Please enter a URL to analyze."
  /\ error_box (App (final (invoke srv s))) = Some "Please enter a URL to analyze.".
Proof.
  intros Hu. unfold invoke. rewrite Hu, exec_handleAnalysis_empty.
  repeat split.
Qed.

(** C10: when the empty-URL check fires, the only effect is the write of
    the error cell: the URL, the loading flag and the stored result are
    what they were, so a panel that was shown is still shown, now next to
    the validation message. *)
Theorem empty_url_frame (s : State) :
  url s = "" ->
  map fst (trace (invoke srv s)) = [SetErrorTo (Some validation_message)]
  /\ final (invoke srv s) = with_error (Some validation_message) s
  /\ url (final (invoke srv s)) = url s
  /\ isLoading (final (invoke srv s)) = isLoading s
  /\ result (final (invoke srv s)) = result s
  /\ isLoading_writes (trace (invoke srv s)) = []
  /\ panel (App (final (invoke srv s))) = panel (App s)
  /\ error_box (App (final (invoke srv s))) = Some validation_message.
Proof.
  intros Hu. unfold invoke. rewrite Hu, exec_handleAnalysis_empty.
  repeat split; exact Hu.
Qed.

(** C2: when the remote call is rejected (an exception, a timeout, a
    non-2xx status), or answers without text or with text that
    [JSON.parse] refuses, the handler returns with the one generic message
    in the error cell and [null] in the result cell; the only value ever
    written to the result cell is [null], the view shows the message and
    no panel. *)
Theorem failure_shows_generic_message (s : State) :
  url s <> "" ->
  Fails (srv (request_for (url s))) ->
  completion (invoke srv s) = Some (inr tt)
  /\ error (final (invoke srv s)) = Some failure_message
  /\ result (final (invoke srv s)) = JNull
  /\ result_writes (trace (invoke srv s)) = [JNull]
  /\ error_box (App (final (invoke srv s))) = Some failure_message
  /\ panel (App (final (invoke srv s))) = Hidden.
Proof.
  intros Hu Hf. run_handler Hu.
  inversion Hf as [reason Ho | Ho | t Hp Ho]; cbn; try rewrite Hp; cbn;
    repeat split.
Qed.

(** C7: when the call resolves with text that parses, the parsed value is
    the content of the result cell at the end, whatever was stored before,
    and the error cell ends [null], whatever message it held before. *)
Theorem success_replaces_result_and_clears_error (s : State) (t : string) (v : value) :
  url s <> "" ->
  srv (request_for (url s)) = Resolved {| text := Some t |} ->
  JSON_parse (trim t) = Some v ->
  completion (invoke srv s) = Some (inr tt)
  /\ result (final (invoke srv s)) = v
  /\ error (final (invoke srv s)) = None
  /\ error_box (App (final (invoke srv s))) = None.
Proof.
  intros Hu Ho Hp. run_handler Hu. rewrite Ho. cbn. rewrite Hp. cbn.
  repeat split.
Qed.

(** C6: past the empty-URL check the loading flag is raised before the
    call goes out and holds in every state in which the call is
    outstanding; those states are rendered with the input and the button
    disabled.  Once the promise has settled either way, the handler
    returns with the flag lowered, and where the form is rendered at the
    end both controls are enabled. *)
Theorem loading_flag_spans_request (s : State) :
  url s <> "" ->
  in_flight false (trace (invoke srv s)) <> []
  /\ Forall (fun m => isLoading m = true
                      /\ render_modelled m = true
                      /\ input_disabled (App m) = true
                      /\ button_disabled (App m) = true)
            (in_flight false (trace (invoke srv s)))
  /\ hd_error (map fst (trace (invoke srv s))) = Some (SetIsLoadingTo true)
  /\ (srv (request_for (url s)) <> Pending ->
      completion (invoke srv s) = Some (inr tt)
      /\ isLoading_writes (trace (invoke srv s)) = [true; false]
      /\ isLoading (final (invoke srv s)) = false
      /\ (render_modelled (final (invoke srv s)) = true ->
          input_disabled (App (final (invoke srv s))) = false
          /\ button_disabled (App (final (invoke srv s))) = false)).
Proof.
  intros Hu. run_handler Hu.
  destruct (srv (request_for (url s))) as [|reason|[[t|]]]; cbn;
    try destruct (JSON_parse (trim t)); cbn;
    (split; [discriminate|]);
    (split; [repeat constructor|]);
    (split; [reflexivity|]);
    intros Hp; try congruence; repeat split.
Qed.

(** C9: only the empty string is stopped by the local check.  With a URL
    of white space only the handler issues the remote call, never writes
    the validation message, has no message in the error cell while the call
    is outstanding, and does not end with the validation message shown. *)
Theorem whitespace_url_is_sent (s : State) :
  whitespace_only (url s) = true ->
  requests (trace (invoke srv s)) = [request_for (url s)]
  /\ ~ In (Some validation_message) (error_writes (trace (invoke srv s)))
  /\ Forall (fun m => error m = None) (in_flight false (trace (invoke srv s)))
  /\ error (final (invoke srv s)) <> Some validation_message
  /\ error_box (App (final (invoke srv s))) <> Some validation_message.
Proof.
  intros Hw.
  assert (Hu : url s <> "").
  { intros E. rewrite E in Hw. discriminate Hw. }
  run_handler Hu.
  destruct (srv (request_for (url s))) as [|reason|[[t|]]]; cbn;
    try destruct (JSON_parse (trim t)); cbn;
    (split; [reflexivity|]);
    (split; [unfold validation_message, failure_message; intuition discriminate|]);
    (split; [repeat constructor|]);
    split; unfold validation_message, failure_message; discriminate.
Qed.

End Handler.

Lemma conforms_strings (l : list value) :
  forallb (conforms (STRING None None)) l = true ->
  exists inds : list string, as_strings l = Some inds /\ l = map JStr inds.
Proof.
  induction l as [|v l IH]; intros H.
  - exists []. split; reflexivity.
  - cbn [forallb] in H. apply andb_prop in H. destruct H as [Hv Hl].
    destruct (IH Hl) as [inds [E1 E2]].
    destruct v; try discriminate Hv.
    exists (s :: inds). cbn. rewrite E1, E2. split; reflexivity.
Qed.

Lemma Confidence_of_text_enum (c : string) :
  existsb (String.eqb c) ["High"; "Medium"; "Low"; "None"] = true ->
  exists c' : Confidence,
    Confidence_of_text c = Some c' /\ Confidence_text c' = c.
Proof.
  unfold Confidence_of_text. cbn [existsb].
  destruct (String.eqb_spec c "High") as [->|_]; [exists High; auto|].
  destruct (String.eqb_spec c "Medium") as [->|_]; [exists Medium; auto|].
  destruct (String.eqb_spec c "Low") as [->|_]; [exists Low; auto|].
  destruct (String.eqb_spec c "None") as [->|_]; [exists ConfidenceNone; auto|].
  discriminate.
Qed.

(** A value that matches the declared schema is an object that has the
    four fields with the declared types: it is a [PhishingAnalysisResult]. *)
Lemma conforms_typed (v : value) :
  conforms phishingAnalysisSchema v = true ->
  exists (ms : list (string * value)) (r : PhishingAnalysisResult),
    v = JObj ms
    /\ as_PhishingAnalysisResult v = Some r
    /\ assoc "isPhishing" ms = Some (JBool (isPhishing r))
    /\ assoc "confidence" ms = Some (JStr (Confidence_text (confidence r)))
    /\ assoc "explanation" ms = Some (JStr (explanation r))
    /\ assoc "indicators" ms = Some (JArr (map JStr (indicators r))).
Proof.
  intros H. destruct v as [| | | | |ms]; try discriminate H.
  cbn -[assoc String.eqb] in H. unfold has_key in H.
  apply andb_prop in H. destruct H as [Hk H].
  apply andb_prop in H. destruct H as [H1 H].
  apply andb_prop in H. destruct H as [Hc H].
  apply andb_prop in H. destruct H as [H3 H].
  apply andb_prop in H. destruct H as [Hl _].
  destruct (assoc "isPhishing" ms) as [[|b| | | |]|] eqn:E1; try discriminate.
  destruct (assoc "confidence" ms) as [[| | |c| |]|] eqn:E2; try discriminate.
  destruct (assoc "explanation" ms) as [[| | |e| |]|] eqn:E3; try discriminate.
  destruct (assoc "indicators" ms) as [[| | | |l|]|] eqn:E4; try discriminate.
  destruct (Confidence_of_text_enum c Hc) as [c' [Ec Et]].
  destruct (conforms_strings l Hl) as [inds [Ei El]].
  exists ms, {| isPhishing := b; confidence := c'; explanation := e;
                indicators := inds |}.
  unfold as_PhishingAnalysisResult. rewrite E1, E2, E3, E4, Ec, Ei. cbn.
  rewrite Et, El. repeat split.
Qed.

Section Analyzer_properties.
Context {B : Builtins}.
Variable srv : Service.

(** C3: when the call resolves with text that parses to a value matching
    the declared schema, the analyser returns that very value: an object
    in which [isPhishing] is a boolean, [confidence] one of the four
    levels, [explanation] a string and [indicators] an array of strings,
    each as the body has it. *)
Theorem analyzer_mirrors_conforming_body (u : string) (s : State) (t : string) (v : value) :
  srv (request_for u) = Resolved {| text := Some t |} ->
  JSON_parse (trim t) = Some v ->
  conforms phishingAnalysisSchema v = true ->
  completion (exec srv (analyzeUrlForPhishing u) s) = Some (inr v)
  /\ exists (ms : list (string * value)) (r : PhishingAnalysisResult),
       v = JObj ms
       /\ as_PhishingAnalysisResult v = Some r
       /\ assoc "isPhishing" ms = Some (JBool (isPhishing r))
       /\ assoc "confidence" ms = Some (JStr (Confidence_text (confidence r)))
       /\ assoc "explanation" ms = Some (JStr (explanation r))
       /\ assoc "indicators" ms = Some (JArr (map JStr (indicators r))).
Proof.
  intros Ho Hp Hc. split.
  - rewrite exec_analyzeUrlForPhishing. cbn zeta. rewrite Ho. cbn.
    rewrite Hp. reflexivity.
  - apply conforms_typed. exact Hc.
Qed.

(** C8: the analyser checks nothing about the parsed value.  When the
    response carries text, whatever [JSON.parse] makes of the trimmed text
    is returned as the analysis, be it [null], a number or an object
    without the declared fields, and the analyser throws exactly when
    [JSON.parse] refuses the trimmed text; the [SyntaxError] is then
    logged and the generic error thrown in its place. *)
Theorem analyzer_returns_any_parsed_value (u : string) (s : State) (t : string) :
  srv (request_for u) = Resolved {| text := Some t |} ->
  (forall v : value,
      JSON_parse (trim t) = Some v ->
      completion (exec srv (analyzeUrlForPhishing u) s) = Some (inr v))
  /\ ((exists e : JsError,
          completion (exec srv (analyzeUrlForPhishing u) s) = Some (inl e))
      <-> JSON_parse (trim t) = None)
  /\ (JSON_parse (trim t) = None ->
      exec srv (analyzeUrlForPhishing u) s
      = failed_run (request_for u) s (inr {| text := Some t |}) SyntaxError_json).
Proof.
  intros Ho. rewrite exec_analyzeUrlForPhishing. cbn zeta. rewrite Ho. cbn.
  destruct (JSON_parse (trim t)) as [w|]; cbn; repeat split.
  - intros v E. inversion E. reflexivity.
  - intros [e E]; discriminate E.
  - discriminate.
  - discriminate.
  - discriminate.
  - intros _; eexists; reflexivity.
Qed.

End Analyzer_properties.

(** ** The indicator classifier *)

Lemma all_ascii_complete (c : ascii) : In c all_ascii.
Proof.
  rewrite <- (ascii_nat_embedding c). apply in_map. apply in_seq.
  pose proof (nat_ascii_bounded c). lia.
Qed.

Lemma folds_agree_all :
  forallb (fun c => forallb (folds_agree c) all_ascii) all_ascii = true.
Proof. vm_compute. reflexivity. Qed.

(** Upper-casing and lower-casing identify the same pairs of characters. *)
Lemma canonicalize_lower (c d : ascii) :
  canonicalize true c = canonicalize true d <-> lower c = lower d.
Proof.
  pose proof folds_agree_all as H.
  rewrite forallb_forall in H. specialize (H c (all_ascii_complete c)).
  rewrite forallb_forall in H. specialize (H d (all_ascii_complete d)).
  unfold folds_agree in H. apply Bool.eqb_prop in H.
  rewrite <- !Ascii.eqb_eq. rewrite H. reflexivity.
Qed.

Lemma map_canonicalize_lower (a b : list ascii) :
  map (canonicalize true) a = map (canonicalize true) b
  <-> map lower a = map lower b.
Proof.
  revert b. induction a as [|x a IH]; intros [|y b]; cbn; try (split; congruence).
  split; intros E; injection E as E1 E2; f_equal;
    try (apply canonicalize_lower; exact E1); apply IH; exact E2.
Qed.

#[local] Opaque canonicalize.

Lemma match_chars_spec (p s rest : list ascii) :
  match_chars true p s = Some rest
  <-> exists mid : list ascii,
        s = (mid ++ rest)%list
        /\ map (canonicalize true) mid = map (canonicalize true) p.
Proof.
  revert s. induction p as [|a p IH]; intros s; cbn [match_chars].
  - split.
    + intros E. injection E as ->. exists []. split; reflexivity.
    + intros [mid [-> E]]. destruct mid; [reflexivity | discriminate E].
  - destruct s as [|b s].
    + split; [discriminate|].
      intros [mid [E1 E2]]. destruct mid; [discriminate E2 | discriminate E1].
    + destruct (Ascii.eqb_spec (canonicalize true a) (canonicalize true b))
        as [Eab|Nab]; cbv iota.
      * rewrite IH. split.
        -- intros [mid [-> E]]. exists (b :: mid). cbn [map app]. rewrite E, Eab.
           split; reflexivity.
        -- intros [mid [E1 E2]]. destruct mid as [|m mid]; [discriminate E2|].
           cbn [map app] in E1, E2. injection E1 as -> ->. injection E2 as _ E2.
           exists mid. split; [reflexivity | exact E2].
      * split; [discriminate|].
        intros [mid [E1 E2]]. destruct mid as [|m mid]; [discriminate E2|].
        cbn [map app] in E1, E2. injection E1 as -> ->. injection E2 as E2 _.
        congruence.
Qed.

#[local] Transparent canonicalize.

Lemma search_spec (r : RegExp) (s : list ascii) :
  search true r s = true
  <-> exists pre suf : list ascii,
        s = (pre ++ suf)%list /\ matcher true r suf (fun _ => true) = true.
Proof.
  induction s as [|c s IH]; cbn [search]; rewrite orb_true_iff.
  - split.
    + intros [H|H]; [|discriminate H]. exists [], []. split; [reflexivity | exact H].
    + intros [pre [suf [E H]]]. left.
      symmetry in E. apply app_eq_nil in E. destruct E as [_ ->]. exact H.
  - rewrite IH. split.
    + intros [H|[pre [suf [-> H]]]].
      * exists [], (c :: s). split; [reflexivity | exact H].
      * exists (c :: pre), suf. split; [reflexivity | exact H].
    + intros [pre [suf [E H]]]. destruct pre as [|x pre].
      * left. cbn in E. rewrite E. exact H.
      * right. cbn in E. injection E as _ ->. exists pre, suf.
        split; [reflexivity | exact H].
Qed.

Lemma matcher_safe_pattern (s : list ascii) :
  matcher true safe_pattern s (fun _ => true) = true
  <-> exists kw : string,
        In kw positive_keywords
        /\ exists rest : list ascii, match_chars true (chars kw) s = Some rest.
Proof.
  unfold safe_pattern, positive_keywords. cbn [matcher In].
  rewrite !orb_true_iff. split.
  - intros H.
    repeat (destruct H as [H|H]);
      match type of H with
      | match match_chars true (chars ?k) s with _ => _ end = true =>
          exists k; split; [tauto |];
          destruct (match_chars true (chars k) s) as [rest|];
          [exists rest; reflexivity | discriminate H]
      end.
  - intros [kw [Hin [rest E]]].
    repeat (destruct Hin as [<-|Hin]; [rewrite E; tauto|]).
    destruct Hin.
Qed.

Lemma chars_append (a b : string) : chars (a ++ b) = (chars a ++ chars b)%list.
Proof. induction a as [|c a IH]; cbn; [reflexivity | f_equal; exact IH]. Qed.

Lemma text_of_append (a b : list ascii) :
  text_of (a ++ b)%list = text_of a ++ text_of b.
Proof. induction a as [|c a IH]; cbn; [reflexivity | f_equal; exact IH]. Qed.

Lemma isSafe_spec (s : string) :
  isSafe s = true <-> mentions_positive_keyword s.
Proof.
  unfold isSafe, test, mentions_positive_keyword, contains_ignoring_case,
    same_ignoring_case.
  rewrite search_spec. split.
  - intros [pre [suf [E H]]].
    apply matcher_safe_pattern in H. destruct H as [kw [Hin [rest Hm]]].
    apply match_chars_spec in Hm. destruct Hm as [mid [-> Hc]].
    exists kw. split; [exact Hin|].
    exists (text_of pre), (text_of mid), (text_of rest). split.
    + rewrite <- !text_of_append, <- E. unfold text_of, chars.
      symmetry. apply string_of_list_ascii_of_string.
    + unfold text_of, chars. rewrite list_ascii_of_string_of_list_ascii.
      apply map_canonicalize_lower. exact Hc.
  - intros [kw [Hin [pre [mid [post [-> Hc]]]]]].
    exists (chars pre), (chars mid ++ chars post)%list. split.
    + rewrite !chars_append. reflexivity.
    + apply matcher_safe_pattern. exists kw. split; [exact Hin|].
      exists (chars post). apply match_chars_spec. exists (chars mid).
      split; [reflexivity | apply map_canonicalize_lower; exact Hc].
Qed.

(** C4: an indicator gets the positive (green, check-mark) icon exactly
    when it contains, letter case aside, one of HTTPS, legitimate, secure,
    trusted, valid; every other indicator gets the negative (red, cross)
    icon. *)
Theorem indicator_positive_iff_keyword (indicator : string) :
  (isSafe indicator = true <-> mentions_positive_keyword indicator)
  /\ (isSafe indicator = false <-> ~ mentions_positive_keyword indicator)
  /\ (IndicatorIcon (isSafe indicator)
        = {| color := "text-sentinel-green"; glyph := CheckMark |}
      <-> mentions_positive_keyword indicator)
  /\ (IndicatorIcon (isSafe indicator)
        = {| color := "text-sentinel-red"; glyph := Cross |}
      <-> ~ mentions_positive_keyword indicator).
Proof.
  pose proof (isSafe_spec indicator) as H.
  destruct (isSafe indicator); cbn; repeat split;
    try (intros; apply H; reflexivity);
    try discriminate;
    try (intros N; exfalso; apply N; apply H; reflexivity);
    try (intros M E; apply H in E; discriminate E);
    try (intros M; apply H in M; discriminate M).
Qed.

(** ** The example of the specification *)

(** C5, as the code has it: for the example result the panel shows the red
    'Phishing Detected' pill, threat level 'Dangerous' and confidence
    'High'; the row of 'Suspicious subdomain' has the negative icon, and
    the row of 'Uses HTTP not HTTPS' has the positive icon, because that
    string contains the keyword HTTPS. *)
Theorem example_panel (u e : string) :
  status (result_panel u (example_result e)) = Some red_pill
  /\ threat_level (result_panel u (example_result e)) = "Dangerous"
  /\ threat_color (result_panel u (example_result e)) = "text-sentinel-red"
  /\ confidence_shown (result_panel u (example_result e)) = "High"
  /\ rows (result_panel u (example_result e))
     = [ (IndicatorIcon false, "Suspicious subdomain");
         (IndicatorIcon true, "Uses HTTP not HTTPS") ]
  /\ ~ mentions_positive_keyword "Suspicious subdomain"
  /\ contains_ignoring_case "HTTPS" "Uses HTTP not HTTPS".
Proof.
  repeat split.
  - intros M. apply isSafe_spec in M. discriminate M.
  - exists "Uses HTTP not ", "HTTPS", "". split; reflexivity.
Qed.

(** C5, as the specification has it, fails: the two rows are not both
    negative. *)
Lemma example_rows_not_both_negative :
  ~ example_as_specified (result_panel example_url (example_result "...")).
Proof.
  intros [_ [_ [_ H]]]. discriminate H.
Qed.

(** ** The theorems at concrete inputs *)

Example trim_strips_unicode_space :
  trim (String (ascii_of_nat 10) "  {} "
        ++ text_of (Ecma.bytes [9; 194; 160; 226; 128; 138])) = "{}".
Proof. vm_compute. reflexivity. Qed.

Example JSON_parse_samples :
  map JSON_parse
    [ "null"; " 42 "; "{}"; dq "{'a': [1, -2.5e+3, true], 'b': {}, 'a': 'z'}";
      ""; "{"; "01"; "[1,]"; "nul"; dq "'a"; "1 2"; "{'a':1}" ]
  = [ Some JNull; Some (JNum "42"); Some (JObj []);
      Some (JObj [("a", JStr "z"); ("b", JObj [])]);
      None; None; None; None; None; None; None; None ].
Proof. vm_compute. reflexivity. Qed.

Example example_body_parses :
  JSON_parse (trim example_body) = Some example_value
  /\ conforms phishingAnalysisSchema example_value = true
  /\ as_PhishingAnalysisResult example_value = Some (example_result "...").
Proof. vm_compute. repeat split. Qed.

(** The example end to end: the URL is typed, the button is clicked, the
    service answers with the body of the specification. *)
Example example_end_to_end :
  map fst (trace (invoke (answering example_body) example_typed))
  = [ SetIsLoadingTo true; SetErrorTo None; SetResultTo JNull;
      Requested (request_for example_url);
      Settled (inr {| text := Some example_body |});
      SetResultTo example_value; SetIsLoadingTo false ]
  /\ App example_analyzed
     = {| input_value := example_url;
          input_disabled := false;
          button_disabled := false;
          button_label := "Scan URL";
          error_box := None;
          panel := Shown (result_panel example_url (example_result "...")) |}.
Proof. vm_compute. split; reflexivity. Qed.

Lemma empty_url_no_call_validation_message_witness :
  url initial = ""
  /\ requests (trace (invoke unreachable initial)) = []
  /\ error (final (invoke unreachable initial)) = Some "Please enter a URL to analyze.".
Proof.
  split; [reflexivity|].
  pose proof (empty_url_no_call_validation_message unreachable initial eq_refl)
    as [H1 [_ [H3 _]]].
  split; [exact H1 | exact H3].
Defined.

Lemma empty_url_frame_witness :
  url example_cleared = ""
  /\ result (final (invoke unreachable example_cleared)) = example_value
  /\ panel (App (final (invoke unreachable example_cleared)))
     = Shown (result_panel "" (example_result "..."))
  /\ error_box (App (final (invoke unreachable example_cleared))) = Some validation_message.
Proof.
  assert (Hu : url example_cleared = "") by reflexivity.
  split; [exact Hu|].
  pose proof (empty_url_frame unreachable example_cleared Hu)
    as [_ [_ [_ [_ [H5 [_ [H7 H8]]]]]]].
  split; [rewrite H5; vm_compute; reflexivity|].
  split; [rewrite H7; vm_compute; reflexivity | exact H8].
Defined.

Lemma failure_shows_generic_message_witness :
  url example_typed <> ""
  /\ Fails (answering "{" (request_for (url example_typed)))
  /\ error (final (invoke (answering "{") example_typed)) = Some failure_message
  /\ result (final (invoke (answering "{") example_typed)) = JNull.
Proof.
  assert (Hu : url example_typed <> "") by discriminate.
  assert (Hf : Fails (answering "{" (request_for (url example_typed)))).
  { apply fails_malformed. vm_compute. reflexivity. }
  split; [exact Hu|]. split; [exact Hf|].
  pose proof (failure_shows_generic_message (answering "{") example_typed Hu Hf)
    as [_ [H2 [H3 _]]].
  split; [exact H2 | exact H3].
Defined.

Lemma success_replaces_result_and_clears_error_witness :
  url example_stale <> ""
  /\ answering example_body (request_for (url example_stale))
     = Resolved {| text := Some example_body |}
  /\ JSON_parse (trim example_body) = Some example_value
  /\ result (final (invoke (answering example_body) example_stale)) = example_value
  /\ error (final (invoke (answering example_body) example_stale)) = None.
Proof.
  assert (Hu : url example_stale <> "") by discriminate.
  assert (Hp : JSON_parse (trim example_body) = Some example_value)
    by (vm_compute; reflexivity).
  split; [exact Hu|]. split; [reflexivity|]. split; [exact Hp|].
  pose proof (success_replaces_result_and_clears_error
                (answering example_body) example_stale example_body example_value
                Hu eq_refl Hp) as [_ [H2 [H3 _]]].
  split; [exact H2 | exact H3].
Defined.

Lemma loading_flag_spans_request_witness :
  url example_typed <> ""
  /\ in_flight false (trace (invoke unreachable example_typed)) <> []
  /\ isLoading (final (invoke unreachable example_typed)) = false
  /\ button_disabled (App (final (invoke unreachable example_typed))) = false.
Proof.
  assert (Hu : url example_typed <> "") by discriminate.
  split; [exact Hu|].
  pose proof (loading_flag_spans_request unreachable example_typed Hu)
    as [H1 [_ [_ H4]]].
  assert (Hs : unreachable (request_for (url example_typed)) <> Pending)
    by discriminate.
  destruct (H4 Hs) as [_ [_ [H5 H6]]].
  split; [exact H1|]. split; [exact H5|].
  exact (proj2 (H6 eq_refl)).
Defined.

Lemma whitespace_url_is_sent_witness :
  whitespace_only (url space_typed) = true
  /\ requests (trace (invoke silent space_typed)) = [request_for " "]
  /\ error (final (invoke silent space_typed)) <> Some validation_message.
Proof.
  assert (Hw : whitespace_only (url space_typed) = true) by (vm_compute; reflexivity).
  split; [exact Hw|].
  pose proof (whitespace_url_is_sent silent space_typed Hw) as [H1 [_ [_ [H4 _]]]].
  split; [exact H1 | exact H4].
Defined.

Lemma analyzer_returns_any_parsed_value_witness :
  answering " null " (request_for example_url) = Resolved {| text := Some " null " |}
  /\ completion (exec (answering " null ") (analyzeUrlForPhishing example_url) initial)
     = Some (inr JNull).
Proof.
  split; [reflexivity|].
  pose proof (analyzer_returns_any_parsed_value (answering " null ")
                example_url initial " null " eq_refl) as [H _].
  apply H. vm_compute. reflexivity.
Defined.

Lemma analyzer_mirrors_conforming_body_witness :
  answering example_body (request_for example_url)
  = Resolved {| text := Some example_body |}
  /\ JSON_parse (trim example_body) = Some example_value
  /\ conforms phishingAnalysisSchema example_value = true
  /\ completion (exec (answering example_body)
                   (analyzeUrlForPhishing example_url) initial)
     = Some (inr example_value).
Proof.
  assert (Hp : JSON_parse (trim example_body) = Some example_value)
    by (vm_compute; reflexivity).
  assert (Hc : conforms phishingAnalysisSchema example_value = true)
    by (vm_compute; reflexivity).
  split; [reflexivity|]. split; [exact Hp|]. split; [exact Hc|].
  exact (proj1 (analyzer_mirrors_conforming_body (answering example_body)
                  example_url initial example_body example_value
                  eq_refl Hp Hc)).
Defined.

(** * Further properties of the handler *)

(** Splits a run of the handler on a non-empty URL by the way the promise
    settles and by what the response holds. *)
Ltac handler_cases srv s Hu t :=
  run_handler Hu;
  destruct (srv (request_for (url s))) as [|?reason|[[t|]]]; cbn;
  try destruct (JSON_parse (trim t)); cbn.

Section Handler_extras.
Context {B : Builtins}.
Variable srv : Service.

(** X1: an invocation issues no request when the URL is empty and exactly
    one, for that URL, otherwise: a failure is never retried. *)
Theorem at_most_one_request (s : State) :
  requests (trace (invoke srv s))
  = if String.eqb (url s) "" then [] else [request_for (url s)].
Proof.
  destruct (String.eqb_spec (url s) "") as [E|Hu].
  - unfold invoke. rewrite E, exec_handleAnalysis_empty. reflexivity.
  - handler_cases srv s Hu t; reflexivity.
Qed.

Lemma final_depends_on_url (s s' : State) :
  url s <> "" ->
  url s' = url s ->
  final (invoke srv s') = final (invoke srv s)
  /\ completion (invoke srv s') = completion (invoke srv s).
Proof.
  intros Hu E.
  assert (Hu' : url s' <> "") by (rewrite E; exact Hu).
  unfold invoke.
  rewrite (exec_handleAnalysis srv (url s') s' Hu'),
          (exec_handleAnalysis srv (url s) s Hu),
          !exec_analyzeUrlForPhishing.
  cbn zeta. rewrite E.
  destruct (srv (request_for (url s))) as [|reason|[[t|]]]; cbn;
    try destruct (JSON_parse (trim t)); cbn;
    unfold started, with_isLoading, with_result, with_error; cbn;
    rewrite E; split; reflexivity.
Qed.

Lemma url_final (s : State) : url (final (invoke srv s)) = url s.
Proof.
  destruct (String.eqb_spec (url s) "") as [E|Hu].
  - unfold invoke.
    replace (handleAnalysis (url s)) with (handleAnalysis "")
      by (rewrite E; reflexivity).
    rewrite exec_handleAnalysis_empty. reflexivity.
  - handler_cases srv s Hu t; reflexivity.
Qed.

(** X3: on a non-empty URL the cells at the end depend only on the URL
    and on the service, not on the result, the message or the loading flag
    the component held before. *)
Theorem outcome_ignores_previous_cells (s s' : State) :
  url s <> "" ->
  url s' = url s ->
  final (invoke srv s') = final (invoke srv s)
  /\ completion (invoke srv s') = completion (invoke srv s).
Proof. exact (final_depends_on_url s s'). Qed.

(** X22: scanning again changes nothing as long as the service answers
    the same: a second run from the cells the first run left ends in those
    same cells. *)
Theorem rescan_is_idempotent (s : State) :
  url s <> "" ->
  final (invoke srv (final (invoke srv s))) = final (invoke srv s).
Proof.
  intros Hu. apply (final_depends_on_url s (final (invoke srv s)) Hu).
  apply url_final.
Qed.

(** X4: after a run on a non-empty URL the component never holds both a
    message and a result: the error cell is [null] or the result cell
    is. *)
Theorem message_and_result_exclude_each_other (s : State) :
  url s <> "" ->
  error (final (invoke srv s)) = None \/ result (final (invoke srv s)) = JNull.
Proof.
  intros Hu. handler_cases srv s Hu t; auto.
Qed.

(** X5: while the request is outstanding nothing of an earlier analysis
    is on display: in each such state the error cell and the result cell
    are [null], so the view has neither the message box nor the panel. *)
Theorem previous_display_cleared_in_flight (s : State) :
  url s <> "" ->
  Forall (fun m => error m = None /\ result m = JNull
                   /\ error_box (App m) = None /\ panel (App m) = Hidden)
         (in_flight false (trace (invoke srv s))).
Proof.
  intros Hu. handler_cases srv s Hu t; repeat constructor.
Qed.

(** X6: the fallback text 'An unknown error occurred.' is never written to
    the error cell: every error the analyser throws carries its own
    non-empty message. *)
Theorem fallback_message_is_never_shown (s : State) :
  ~ In (Some fallback_message) (error_writes (trace (invoke srv s)))
  /\ error (final (invoke srv s)) <> Some fallback_message.
Proof.
  destruct (String.eqb_spec (url s) "") as [E|Hu].
  - unfold invoke. rewrite E, exec_handleAnalysis_empty. cbn.
    split; [intros [H|[]]; discriminate H | discriminate].
  - handler_cases srv s Hu t;
      (split; [intros H; repeat (destruct H as [H|H]; [discriminate H|]);
               exact H
              | discriminate]).
Qed.

(** X7: when the promise is rejected, the reason goes to the console,
    once, under the label of the analyser, and nowhere else: the message
    put in the error cell is the generic one, whatever the reason says. *)
Theorem rejection_reason_only_logged (s : State) (reason : JsError) :
  url s <> "" ->
  srv (request_for (url s)) = Rejected reason ->
  logged (trace (invoke srv s)) = [("Error analyzing URL with Gemini:", reason)]
  /\ error_writes (trace (invoke srv s)) = [None; Some failure_message].
Proof.
  intros Hu Ho. run_handler Hu. rewrite Ho. cbn. split; reflexivity.
Qed.

(** X8: a successful analysis writes nothing to the console. *)
Theorem success_logs_nothing (s : State) (t : string) (v : value) :
  url s <> "" ->
  srv (request_for (url s)) = Resolved {| text := Some t |} ->
  JSON_parse (trim t) = Some v ->
  logged (trace (invoke srv s)) = [].
Proof.
  intros Hu Ho Hp. run_handler Hu. rewrite Ho. cbn. rewrite Hp. reflexivity.
Qed.

(** X9: there is no timeout.  If the promise never settles the handler
    does not return, and the component stays as it was when the call went
    out: loading, both controls disabled, the button reading
    'Analyzing...', no message and no panel. *)
Theorem unsettled_request_keeps_loading (s : State) :
  url s <> "" ->
  srv (request_for (url s)) = Pending ->
  completion (invoke srv s) = None
  /\ App (final (invoke srv s))
     = {| input_value := url s;
          input_disabled := true;
          button_disabled := true;
          button_label := "Analyzing...";
          error_box := None;
          panel := Hidden |}.
Proof.
  intros Hu Ho. run_handler Hu. rewrite Ho. cbn. split; reflexivity.
Qed.

(** X10: handler and render composed.  When the response parses to a value
    matching the declared schema, the view at the end is the idle form, no
    message, and the panel of that result for the URL of the input. *)
Theorem success_renders_panel (s : State) (t : string) (v : value) :
  url s <> "" ->
  srv (request_for (url s)) = Resolved {| text := Some t |} ->
  JSON_parse (trim t) = Some v ->
  conforms phishingAnalysisSchema v = true ->
  exists r : PhishingAnalysisResult,
    as_PhishingAnalysisResult v = Some r
    /\ App (final (invoke srv s))
       = {| input_value := url s;
            input_disabled := false;
            button_disabled := false;
            button_label := "Scan URL";
            error_box := None;
            panel := Shown (result_panel (url s) r) |}.
Proof.
  intros Hu Ho Hp Hc.
  destruct (conforms_typed v Hc) as [ms [r [Ev [Er _]]]].
  exists r. split; [exact Er|].
  subst v.
  run_handler Hu. rewrite Ho. cbn -[as_PhishingAnalysisResult].
  rewrite Hp. unfold App.
  cbn -[as_PhishingAnalysisResult result_panel].
  rewrite Er. reflexivity.
Qed.

(** X11: a body that is the JSON text [null] counts as a success and
    shows nothing: the handler returns, the form is idle, and the view has
    neither a message nor a panel. *)
Theorem null_body_shows_nothing (s : State) (t : string) :
  url s <> "" ->
  srv (request_for (url s)) = Resolved {| text := Some t |} ->
  JSON_parse (trim t) = Some JNull ->
  completion (invoke srv s) = Some (inr tt)
  /\ logged (trace (invoke srv s)) = []
  /\ App (final (invoke srv s))
     = {| input_value := url s;
          input_disabled := false;
          button_disabled := false;
          button_label := "Scan URL";
          error_box := None;
          panel := Hidden |}.
Proof.
  intros Hu Ho Hp. run_handler Hu. rewrite Ho. cbn. rewrite Hp. cbn.
  repeat split.
Qed.

End Handler_extras.

(** X12: the field 'URL Analyzed' of the panel is the current content of
    the input, not the URL the result was obtained for: typing into the
    input changes that field of a displayed result and nothing else of the
    panel. *)
Theorem url_analyzed_follows_input (s : State) (r : PhishingAnalysisResult) (v : string) :
  as_PhishingAnalysisResult (result s) = Some r ->
  panel (App s) = Shown (result_panel (url s) r)
  /\ panel (App (onChange v s)) = Shown (result_panel v r)
  /\ url_analyzed (result_panel v r) = v.
Proof.
  intros Hr. unfold App, onChange. cbn [panel result url].
  destruct (result s); try discriminate Hr; rewrite Hr; repeat split.
Qed.

(** * Further properties of the analyser *)

Section Analyzer_extras.
Context {B : Builtins}.
Variable srv : Service.

(** X13: the analyser writes no cell of the component, and whatever makes
    it fail (a rejection, a response without text, text that does not
    parse) it throws one and the same error. *)
Theorem analyzer_writes_nothing_throws_one_error (u : string) (s : State) :
  final (exec srv (analyzeUrlForPhishing u) s) = s
  /\ Forall (fun m => snd m = s) (trace (exec srv (analyzeUrlForPhishing u) s))
  /\ forall e : JsError,
       completion (exec srv (analyzeUrlForPhishing u) s) = Some (inl e) ->
       e = Error failure_message.
Proof.
  rewrite exec_analyzeUrlForPhishing. cbn zeta.
  destruct (srv (request_for u)) as [|reason|[[t|]]]; cbn;
    try destruct (JSON_parse (trim t)); cbn;
    (split; [reflexivity|]); (split; [repeat constructor|]);
    intros e E; try discriminate E; injection E as <-; reflexivity.
Qed.

End Analyzer_extras.

Lemma chars_injective (a b : string) : chars a = chars b -> a = b.
Proof.
  intros E. rewrite <- (string_of_list_ascii_of_string a),
                    <- (string_of_list_ascii_of_string b).
  unfold chars in E. rewrite E. reflexivity.
Qed.

(** X14: the request carries the URL: two URLs that lead to the same
    request are the same URL. *)
Theorem request_determines_url (u u' : string) :
  request_for u = request_for u' -> u = u'.
Proof.
  intros E. apply (f_equal contents) in E. unfold request_for in E.
  cbn [contents] in E. apply (f_equal chars) in E.
  unfold prompt_for in E. rewrite !chars_append in E.
  repeat apply app_inv_head in E.
  apply app_inv_tail in E. apply chars_injective. exact E.
Qed.

(** * Further properties of the classifier and of the panel *)

Lemma append_assoc (a b c : string) : (a ++ b) ++ c = a ++ b ++ c.
Proof. induction a as [|x a IH]; cbn; [reflexivity | f_equal; exact IH]. Qed.

Lemma length_chars (s : string) : List.length (chars s) = String.length s.
Proof. induction s as [|c s IH]; cbn; [reflexivity | f_equal; exact IH]. Qed.

(** X15: text around a positive indicator cannot make it negative: an
    indicator stays positive when anything is put before or after it, a
    negation included. *)
Theorem isSafe_survives_context (pre s post : string) :
  isSafe s = true -> isSafe (pre ++ s ++ post) = true.
Proof.
  intros H. apply isSafe_spec in H. apply isSafe_spec.
  destruct H as [kw [Hin [a [mid [b [-> Hc]]]]]].
  exists kw. split; [exact Hin|].
  exists (pre ++ a), mid, (b ++ post). split; [|exact Hc].
  rewrite !append_assoc. reflexivity.
Qed.

(** X16: the classifier does not see letter case anywhere in the
    indicator: two indicators that differ only in the case of ASCII
    letters are classified alike. *)
Theorem isSafe_ignores_case (s s' : string) :
  same_ignoring_case s s' -> isSafe s = isSafe s'.
Proof.
  assert (Half : forall x y : string,
             same_ignoring_case x y -> isSafe x = true -> isSafe y = true).
  { intros x y E H. apply isSafe_spec in H. apply isSafe_spec.
    destruct H as [kw [Hin [a [mid [b [-> Hc]]]]]].
    exists kw. split; [exact Hin|].
    unfold same_ignoring_case in E. rewrite !chars_append, !map_app in E.
    symmetry in E. apply map_eq_app in E.
    destruct E as [a' [r [Ey [Ea Er]]]].
    apply map_eq_app in Er. destruct Er as [mid' [b' [Er [Em Eb]]]].
    exists (text_of a'), (text_of mid'), (text_of b'). split.
    - apply chars_injective. rewrite !chars_append. unfold text_of, chars.
      rewrite !list_ascii_of_string_of_list_ascii. fold (chars y).
      rewrite Ey, Er. reflexivity.
    - unfold same_ignoring_case, text_of, chars.
      rewrite list_ascii_of_string_of_list_ascii. rewrite Em. exact Hc. }
  intros E.
  destruct (isSafe s) eqn:Hs.
  - symmetry. apply (Half s s' E Hs).
  - destruct (isSafe s') eqn:Hs'; [|reflexivity].
    rewrite <- Hs. apply (Half s' s); [|exact Hs'].
    unfold same_ignoring_case in *. symmetry. exact E.
Qed.

Lemma lower_keeps_kind_all :
  forallb (fun c => forallb (lower_keeps_kind c) all_ascii) all_ascii = true.
Proof. vm_compute. reflexivity. Qed.

(** Letters that are equal up to case are both ASCII, so both start a
    character. *)
Lemma lower_starts_character (c d : ascii) :
  lower c = lower d -> starts_character c = starts_character d.
Proof.
  intros E. pose proof lower_keeps_kind_all as H.
  rewrite forallb_forall in H. specialize (H c (all_ascii_complete c)).
  rewrite forallb_forall in H. specialize (H d (all_ascii_complete d)).
  unfold lower_keeps_kind in H. apply Ascii.eqb_eq in E. rewrite E in H.
  apply Bool.eqb_prop. exact H.
Qed.

Lemma count_characters_lower (a b : list ascii) :
  map lower a = map lower b -> count_characters a = count_characters b.
Proof.
  unfold count_characters.
  revert b. induction a as [|x a IH]; intros [|y b] E; try discriminate E.
  - reflexivity.
  - cbn [map] in E. injection E as Ex Er. cbn [filter].
    rewrite (lower_starts_character x y Ex).
    destruct (starts_character y); cbn [List.length]; rewrite (IH b Er);
      reflexivity.
Qed.

Lemma count_characters_app (a b : list ascii) :
  count_characters (a ++ b)%list = count_characters a + count_characters b.
Proof. unfold count_characters. rewrite filter_app, length_app. reflexivity. Qed.

(** X17: an indicator of fewer than five characters, the empty one
    included, is negative, whatever its characters are: no keyword is
    shorter than five. *)
Theorem isSafe_short_is_negative (s : string) :
  code_points s < 5 -> isSafe s = false.
Proof.
  intros Hlen. destruct (isSafe s) eqn:H; [|reflexivity]. exfalso.
  apply isSafe_spec in H.
  destruct H as [kw [Hin [a [mid [b [-> Hc]]]]]].
  assert (Hk : 5 <= code_points kw).
  { unfold positive_keywords in Hin.
    repeat (destruct Hin as [<-|Hin]; [vm_compute; lia|]). destruct Hin. }
  apply count_characters_lower in Hc. fold (code_points mid) in Hc.
  fold (code_points kw) in Hc.
  unfold code_points in Hlen. rewrite !chars_append in Hlen.
  rewrite !count_characters_app in Hlen. fold (code_points mid) in Hlen.
  lia.
Qed.

(** X18: the panel has one row per indicator, in the order of the result,
    each with the text of its indicator unchanged and the icon of that
    text. *)
Theorem rows_follow_indicators (u : string) (r : PhishingAnalysisResult) :
  map snd (rows (result_panel u r)) = indicators r
  /\ List.length (rows (result_panel u r)) = List.length (indicators r)
  /\ Forall (fun row => fst row = IndicatorIcon (isSafe (snd row)))
            (rows (result_panel u r)).
Proof.
  cbn [rows result_panel]. split; [|split].
  - rewrite map_map. cbn [snd]. apply map_id.
  - apply length_map.
  - apply Forall_forall. intros row Hrow. apply in_map_iff in Hrow.
    destruct Hrow as [i [<- _]]. reflexivity.
Qed.

(** X19: pill and threat level never disagree: they have the same colour,
    the pill reads 'Phishing Detected' exactly when the threat level
    reads 'Dangerous', and that is exactly when the result flags
    phishing. *)
Theorem pill_agrees_with_threat_level (u : string) (r : PhishingAnalysisResult) :
  exists pill : Pill,
    status (result_panel u r) = Some pill
    /\ textColor pill = threat_color (result_panel u r)
    /\ (pill_text pill = "Phishing Detected"
        <-> threat_level (result_panel u r) = "Dangerous")
    /\ (threat_level (result_panel u r) = "Dangerous" <-> isPhishing r = true)
    /\ (threat_level (result_panel u r) = "Safe" <-> isPhishing r = false).
Proof.
  eexists. split; [reflexivity|]. cbn.
  destruct (isPhishing r); repeat split; intros; try reflexivity;
    discriminate.
Qed.

(** X20: the declared schema and the declared interface describe the same
    values: a value matches [phishingAnalysisSchema] exactly when it is a
    [PhishingAnalysisResult]. *)
Theorem schema_matches_interface (v : value) :
  conforms phishingAnalysisSchema v = true
  <-> exists r : PhishingAnalysisResult, as_PhishingAnalysisResult v = Some r.
Proof.
  split.
  - intros H. destruct (conforms_typed v H) as [ms [r [_ [Er _]]]].
    exists r. exact Er.
  - intros [r Hr]. destruct v as [| | | | |ms]; try discriminate Hr.
    unfold as_PhishingAnalysisResult in Hr.
    cbn -[assoc String.eqb]. unfold has_key.
    destruct (assoc "isPhishing" ms) as [[|b| | | |]|]; try discriminate Hr.
    destruct (assoc "confidence" ms) as [[| | |c| |]|]; try discriminate Hr.
    destruct (assoc "explanation" ms) as [[| | |e| |]|]; try discriminate Hr.
    destruct (assoc "indicators" ms) as [[| | | |l|]|]; try discriminate Hr.
    destruct (Confidence_of_text c) as [c'|] eqn:Ec; try discriminate Hr.
    destruct (as_strings l) as [inds|] eqn:El; try discriminate Hr.
    assert (Hc : existsb (String.eqb c) ["High"; "Medium"; "Low"; "None"] = true).
    { unfold Confidence_of_text in Ec. cbn [existsb].
      destruct (String.eqb c "High"); [reflexivity|].
      destruct (String.eqb c "Medium"); [reflexivity|].
      destruct (String.eqb c "Low"); [reflexivity|].
      destruct (String.eqb c "None"); [reflexivity | discriminate Ec]. }
    assert (Hl : forallb (conforms (STRING None None)) l = true).
    { clear -El. revert inds El.
      induction l as [|x l IH]; intros inds El; [reflexivity|].
      cbn [as_strings] in El. destruct x; try discriminate El.
      destruct (as_strings l) as [ss|]; [|discriminate El].
      cbn [forallb]. rewrite (IH ss eq_refl). reflexivity. }
    cbn [existsb] in Hc. cbn -[forallb] in Hl. rewrite Hc, Hl. reflexivity.
Qed.

(** * The further properties at concrete inputs *)

Lemma outcome_ignores_previous_cells_witness :
  url example_typed <> ""
  /\ url example_stale = url example_typed
  /\ final (invoke (answering example_body) example_stale)
     = final (invoke (answering example_body) example_typed).
Proof.
  assert (Hu : url example_typed <> "") by discriminate.
  split; [exact Hu|]. split; [reflexivity|].
  exact (proj1 (outcome_ignores_previous_cells (answering example_body)
                  example_typed example_stale Hu eq_refl)).
Defined.

Lemma rescan_is_idempotent_witness :
  url example_stale <> ""
  /\ final (invoke unreachable (final (invoke unreachable example_stale)))
     = final (invoke unreachable example_stale).
Proof.
  assert (Hu : url example_stale <> "") by discriminate.
  split; [exact Hu|].
  exact (rescan_is_idempotent unreachable example_stale Hu).
Defined.

Lemma message_and_result_exclude_each_other_witness :
  url example_stale <> ""
  /\ (error (final (invoke unreachable example_stale)) = None
      \/ result (final (invoke unreachable example_stale)) = JNull).
Proof.
  assert (Hu : url example_stale <> "") by discriminate.
  split; [exact Hu|].
  exact (message_and_result_exclude_each_other unreachable example_stale Hu).
Defined.

Lemma previous_display_cleared_in_flight_witness :
  url example_stale <> ""
  /\ Forall (fun m => error m = None /\ result m = JNull
                      /\ error_box (App m) = None /\ panel (App m) = Hidden)
            (in_flight false (trace (invoke silent example_stale))).
Proof.
  assert (Hu : url example_stale <> "") by discriminate.
  split; [exact Hu|].
  exact (previous_display_cleared_in_flight silent example_stale Hu).
Defined.

Lemma rejection_reason_only_logged_witness :
  url example_typed <> ""
  /\ rejecting fetch_failed (request_for (url example_typed)) = Rejected fetch_failed
  /\ logged (trace (invoke (rejecting fetch_failed) example_typed))
     = [("Error analyzing URL with Gemini:", fetch_failed)].
Proof.
  assert (Hu : url example_typed <> "") by discriminate.
  split; [exact Hu|]. split; [reflexivity|].
  exact (proj1 (rejection_reason_only_logged (rejecting fetch_failed)
                  example_typed fetch_failed Hu eq_refl)).
Defined.

Lemma success_logs_nothing_witness :
  url example_typed <> ""
  /\ answering example_body (request_for (url example_typed))
     = Resolved {| text := Some example_body |}
  /\ JSON_parse (trim example_body) = Some example_value
  /\ logged (trace (invoke (answering example_body) example_typed)) = [].
Proof.
  assert (Hu : url example_typed <> "") by discriminate.
  assert (Hp : JSON_parse (trim example_body) = Some example_value)
    by (vm_compute; reflexivity).
  split; [exact Hu|]. split; [reflexivity|]. split; [exact Hp|].
  exact (success_logs_nothing (answering example_body) example_typed
           example_body example_value Hu eq_refl Hp).
Defined.

Lemma unsettled_request_keeps_loading_witness :
  url example_typed <> ""
  /\ silent (request_for (url example_typed)) = Pending
  /\ completion (invoke silent example_typed) = None.
Proof.
  assert (Hu : url example_typed <> "") by discriminate.
  split; [exact Hu|]. split; [reflexivity|].
  exact (proj1 (unsettled_request_keeps_loading silent example_typed Hu eq_refl)).
Defined.

Lemma success_renders_panel_witness :
  url example_typed <> ""
  /\ answering example_body (request_for (url example_typed))
     = Resolved {| text := Some example_body |}
  /\ JSON_parse (trim example_body) = Some example_value
  /\ conforms phishingAnalysisSchema example_value = true
  /\ exists r : PhishingAnalysisResult,
       as_PhishingAnalysisResult example_value = Some r
       /\ App (final (invoke (answering example_body) example_typed))
          = {| input_value := url example_typed;
               input_disabled := false;
               button_disabled := false;
               button_label := "Scan URL";
               error_box := None;
               panel := Shown (result_panel (url example_typed) r) |}.
Proof.
  assert (Hu : url example_typed <> "") by discriminate.
  assert (Hp : JSON_parse (trim example_body) = Some example_value)
    by (vm_compute; reflexivity).
  assert (Hc : conforms phishingAnalysisSchema example_value = true)
    by (vm_compute; reflexivity).
  split; [exact Hu|]. split; [reflexivity|]. split; [exact Hp|].
  split; [exact Hc|].
  exact (success_renders_panel (answering example_body) example_typed
           example_body example_value Hu eq_refl Hp Hc).
Defined.

Lemma null_body_shows_nothing_witness :
  url example_typed <> ""
  /\ answering " null " (request_for (url example_typed))
     = Resolved {| text := Some " null " |}
  /\ JSON_parse (trim " null ") = Some JNull
  /\ completion (invoke (answering " null ") example_typed) = Some (inr tt).
Proof.
  assert (Hu : url example_typed <> "") by discriminate.
  assert (Hp : JSON_parse (trim " null ") = Some JNull)
    by (vm_compute; reflexivity).
  split; [exact Hu|]. split; [reflexivity|]. split; [exact Hp|].
  exact (proj1 (null_body_shows_nothing (answering " null ") example_typed
                  " null " Hu eq_refl Hp)).
Defined.

Lemma url_analyzed_follows_input_witness :
  as_PhishingAnalysisResult (result example_analyzed) = Some (example_result "...")
  /\ panel (App (onChange "https://example.com" example_analyzed))
     = Shown (result_panel "https://example.com" (example_result "...")).
Proof.
  assert (Hr : as_PhishingAnalysisResult (result example_analyzed)
               = Some (example_result "...")) by (vm_compute; reflexivity).
  split; [exact Hr|].
  exact (proj1 (proj2 (url_analyzed_follows_input example_analyzed
                         (example_result "...") "https://example.com" Hr))).
Defined.

Lemma request_determines_url_witness :
  request_for example_url = request_for "http://paypa1-secure-login.com"
  /\ example_url = "http://paypa1-secure-login.com".
Proof.
  split; [reflexivity|].
  exact (request_determines_url example_url "http://paypa1-secure-login.com"
           eq_refl).
Defined.

Lemma isSafe_survives_context_witness :
  isSafe "secure" = true
  /\ isSafe ("Connection is not " ++ "secure" ++ " at all") = true.
Proof.
  assert (H : isSafe "secure" = true) by (vm_compute; reflexivity).
  split; [exact H|].
  exact (isSafe_survives_context "Connection is not " "secure" " at all" H).
Defined.

Lemma isSafe_ignores_case_witness :
  same_ignoring_case "Uses HTTPS" "uses https"
  /\ isSafe "Uses HTTPS" = isSafe "uses https".
Proof.
  assert (H : same_ignoring_case "Uses HTTPS" "uses https")
    by (vm_compute; reflexivity).
  split; [exact H|].
  exact (isSafe_ignores_case "Uses HTTPS" "uses https" H).
Defined.

Lemma isSafe_short_is_negative_witness :
  code_points "éééé" < 5 /\ isSafe "éééé" = false.
Proof.
  assert (H : code_points "éééé" < 5) by (vm_compute; repeat constructor).
  split; [exact H|].
  exact (isSafe_short_is_negative "éééé" H).
Defined.
